(** * Work catalog: shallow embedding of [src/app/@content/works/data.ts]

    The module is a statically initialised catalogue of portfolio case
    studies together with a handful of pure accessors.  The embedding
    follows the TypeScript source definition by definition:

    - strings are [string] (the UTF-8 bytes of the source text; only
      concatenation and equality are ever used on them);
    - [number] is an IEEE-754 binary64 value, i.e. a primitive [float];
    - optional properties are [option] fields;
    - the catalogue is a JavaScript object used as a map: an ordered
      property list with the ordinary property order and with property
      reads that continue into [Object.prototype];
    - the accessors read the module-level object; the embedding passes the
      object they read as an explicit argument. *)

From Stdlib Require Import Bool Ascii String List NArith Lia Permutation.
From Stdlib Require Import Floats.PrimFloat.
Import ListNotations.

Set Implicit Arguments.

Local Open Scope list_scope.
Local Open Scope string_scope.

(* ====================================================================== *)
(** * JavaScript values and objects used by the module                     *)
(* ====================================================================== *)

Module Js.

(** ** Numbers and strings *)

(** [number]: a binary64 float. *)
Definition number : Type := float.

(** [ToBoolean] on a number: [+0], [-0] and [NaN] are falsy, every other
    number is truthy. *)
Definition truthy (n : number) : bool :=
  negb (is_zero n || is_nan n).

(** [ToBoolean] on an optional argument: a parameter that was not passed is
    [undefined], which is falsy. *)
Definition truthy_arg (a : option number) : bool :=
  match a with
  | None => false
  | Some n => truthy n
  end.

(** [Array.prototype.join] on an array of strings. *)
Fixpoint join (sep : string) (parts : list string) : string :=
  match parts with
  | [] => ""
  | p :: rest =>
      match rest with
      | [] => p
      | _ :: _ => p ++ sep ++ join sep rest
      end
  end.

(** [String.prototype.split] with a one-character separator; [cur] holds the
    piece read so far. *)
Fixpoint split_acc (sep : ascii) (cur : string) (s : string) : list string :=
  match s with
  | EmptyString => [cur]
  | String c rest =>
      if Ascii.eqb c sep
      then cur :: split_acc sep "" rest
      else split_acc sep (cur ++ String c "") rest
  end.

Definition split (sep : ascii) (s : string) : list string :=
  split_acc sep "" s.

(** Does the character occur in the string? *)
Fixpoint mem_char (c : ascii) (s : string) : bool :=
  match s with
  | EmptyString => false
  | String d rest => Ascii.eqb d c || mem_char c rest
  end.

(** ** Arrays *)

(** [Array.prototype.filter] and [Array.prototype.map] with a pure callback:
    the elements are visited by increasing index. *)
Fixpoint Array_filter (A : Type) (keep : A -> bool) (a : list A) : list A :=
  match a with
  | [] => []
  | x :: rest =>
      if keep x then x :: Array_filter keep rest else Array_filter keep rest
  end.

Fixpoint Array_map (A B : Type) (f : A -> B) (a : list A) : list B :=
  match a with
  | [] => []
  | x :: rest => f x :: Array_map f rest
  end.

(** [Array.prototype.find]: the first element the callback accepts. *)
Fixpoint Array_find (A : Type) (p : A -> bool) (a : list A) : option A :=
  match a with
  | [] => None
  | x :: rest => if p x then Some x else Array_find p rest
  end.

(** ** Ordinary objects used as maps *)

(** The own string-keyed properties of an object, in creation order. *)
Definition object (V : Type) : Type := list (string * V).

(** Own property lookup. *)
Fixpoint own (V : Type) (k : string) (o : object V) : option V :=
  match o with
  | [] => None
  | (k', v) :: rest => if String.eqb k' k then Some v else own k rest
  end.

(** Defining a property: an existing key keeps its place and takes the new
    value, a new key is created last. *)
Fixpoint define (V : Type) (k : string) (v : V) (o : object V) : object V :=
  match o with
  | [] => [(k, v)]
  | (k', v') :: rest =>
      if String.eqb k' k then (k', v) :: rest else (k', v') :: define k v rest
  end.

(** Deleting an own property. *)
Fixpoint delete (V : Type) (k : string) (o : object V) : object V :=
  match o with
  | [] => []
  | (k', v') :: rest =>
      if String.eqb k' k then rest else (k', v') :: delete k rest
  end.

(** An object literal defines its properties from left to right. *)
Definition literal (V : Type) (props : list (string * V)) : object V :=
  fold_left (fun o kv => define (fst kv) (snd kv) o) props [].

(** Array indices: canonical decimal strings below [2^32 - 1]. *)
Definition digit (c : ascii) : option N :=
  let n := N_of_ascii c in
  if (48 <=? n)%N && (n <=? 57)%N then Some (n - 48)%N else None.

Fixpoint digits (acc : N) (s : string) : option N :=
  match s with
  | EmptyString => Some acc
  | String c rest =>
      match digit c with
      | Some d => digits (acc * 10 + d)%N rest
      | None => None
      end
  end.

Definition array_index (k : string) : option N :=
  match k with
  | EmptyString => None
  | String c rest =>
      if Ascii.eqb c "0" && negb (String.eqb rest "")
      then None
      else
        match digits 0 k with
        | Some n => if (n <? 4294967295)%N then Some n else None
        | None => None
        end
  end.

(** Own property order ([OrdinaryOwnPropertyKeys]): array indices by
    increasing value, then the other keys in creation order. *)
Fixpoint place (V : Type) (n : N) (kv : string * V)
    (l : list (N * (string * V))) : list (N * (string * V)) :=
  match l with
  | [] => [(n, kv)]
  | (m, kv') :: rest =>
      if (n <=? m)%N then (n, kv) :: l else (m, kv') :: place n kv rest
  end.

Fixpoint indexed (V : Type) (o : object V) : list (N * (string * V)) :=
  match o with
  | [] => []
  | kv :: rest =>
      match array_index (fst kv) with
      | Some n => place n kv (indexed rest)
      | None => indexed rest
      end
  end.

Fixpoint named (V : Type) (o : object V) : list (string * V) :=
  match o with
  | [] => []
  | kv :: rest =>
      match array_index (fst kv) with
      | Some _ => named rest
      | None => kv :: named rest
      end
  end.

Definition own_properties (V : Type) (o : object V) : list (string * V) :=
  (Array_map snd (indexed o) ++ named o)%list.

(** [Object.keys] and [Object.values]. *)
Definition Object_keys (V : Type) (o : object V) : list string :=
  Array_map fst (own_properties o).

Definition Object_values (V : Type) (o : object V) : list V :=
  Array_map snd (own_properties o).

(** The properties every ordinary object inherits from [Object.prototype]. *)
Inductive builtin : Type :=
| Object_constructor
| Object_hasOwnProperty
| Object_isPrototypeOf
| Object_propertyIsEnumerable
| Object_toLocaleString
| Object_toString
| Object_valueOf
| Object_proto
| Object_defineGetter
| Object_defineSetter
| Object_lookupGetter
| Object_lookupSetter.

Definition Object_prototype : object builtin :=
  [ ("constructor", Object_constructor);
    ("hasOwnProperty", Object_hasOwnProperty);
    ("isPrototypeOf", Object_isPrototypeOf);
    ("propertyIsEnumerable", Object_propertyIsEnumerable);
    ("toLocaleString", Object_toLocaleString);
    ("toString", Object_toString);
    ("valueOf", Object_valueOf);
    ("__proto__", Object_proto);
    ("__defineGetter__", Object_defineGetter);
    ("__defineSetter__", Object_defineSetter);
    ("__lookupGetter__", Object_lookupGetter);
    ("__lookupSetter__", Object_lookupSetter) ].

(** The result of a property read [o[k]] on an object created by a literal:
    the own property if there is one, else what [Object.prototype] holds
    under that name, else [undefined]. *)
Inductive value (V : Type) : Type :=
| Own (v : V)
| Inherited (b : builtin)
| Undefined.

Arguments Inherited {V} b.
Arguments Undefined {V}.

Definition get (V : Type) (o : object V) (k : string) : value V :=
  match own k o with
  | Some v => Own v
  | None =>
      match own k Object_prototype with
      | Some b => Inherited b
      | None => Undefined
      end
  end.

End Js.

(* ====================================================================== *)
(** * Types                                                                *)
(* ====================================================================== *)

(** [interface WorkImage] *)
Record WorkImage : Type := mkWorkImage {
  src : string;
  srcSet : option string;
  alt : string;
  width : option Js.number;
  height : option Js.number;
  sizes : option string
}.

(** [interface WorkAbout] *)
Record WorkAbout : Type := mkWorkAbout {
  client : string;
  contribution : string;
  year : string
}.

(** The string literal union ['products' | 'uiux' | '3d']. *)
Inductive Category : Type :=
| products
| uiux
| threeD.

(** The string a category stands for. *)
Definition Category_text (c : Category) : string :=
  match c with
  | products => "products"
  | uiux => "uiux"
  | threeD => "3d"
  end.

(** [===] on categories is string equality of the literals. *)
Definition Category_eqb (c d : Category) : bool :=
  String.eqb (Category_text c) (Category_text d).

(** [interface WorkDetail] *)
Record WorkDetail : Type := mkWorkDetail {
  id : string;
  title : string;
  description : string;
  category : Category;
  thumbnailImage : string;
  heroImage : WorkImage;
  secondaryImage : WorkImage;
  about : WorkAbout;
  fullDescription : string;
  processImage : WorkImage;
  problemTitle : string;
  problemDescription : list string;
  solutionTitle : string;
  solutionDescription : list string;
  closingImage : WorkImage;
  externalLink : option string
}.

(* ====================================================================== *)
(** * Helper functions: image configuration                                *)
(* ====================================================================== *)

(** [generateSrcSet]: the template literal, spliced left to right. *)
Definition generateSrcSet (src : string) : string :=
  src ++ "?scale-down-to=512 512w," ++
  src ++ "?scale-down-to=1024 1024w," ++
  src ++ "?scale-down-to=2048 2048w," ++
  src ++ "?scale-down-to=4096 4096w," ++
  src ++ " 4500w".

(** The value of [dim && { dim }]: JavaScript's [&&] yields its left operand
    when that operand is falsy and its right operand otherwise. *)
Inductive Guarded : Type :=
| Falsy (operand : option Js.number)
| Props (dim : Js.number).

Definition guard (dim : option Js.number) : Guarded :=
  match dim with
  | None => Falsy None
  | Some n => if Js.truthy n then Props n else Falsy (Some n)
  end.

(** Spreading [...g] into an object literal: [undefined] and numbers have no
    own enumerable properties, so only the object case contributes one. *)
Definition spread (g : Guarded) : option Js.number :=
  match g with
  | Falsy _ => None
  | Props n => Some n
  end.

(** [createWorkImage] *)
Definition createWorkImage
    (src alt : string) (width height : option Js.number) : WorkImage :=
  {| src := src;
     srcSet := Some (generateSrcSet src);
     alt := alt;
     width := spread (guard width);
     height := spread (guard height);
     sizes := Some "calc(100vw - 24px)" |}.

(** [createHeroImage]: hero and closing images, 2400x1600. *)
Definition createHeroImage (src alt : string) : WorkImage :=
  createWorkImage src alt (Some 2400%float) (Some 1600%float).

(** [createSecondaryImage]: secondary and process images, no dimensions. *)
Definition createSecondaryImage (src alt : string) : WorkImage :=
  createWorkImage src alt None None.

(* ====================================================================== *)
(** * Single source of truth: work details data                            *)
(* ====================================================================== *)

Definition corevia_financial_platform : WorkDetail :=
  {| id := "corevia-financial-platform";
     title := "Corevia Financial Management Platform";
     description := "Modern financial consulting website with comprehensive service pages and responsive design.";
     category := products;
     thumbnailImage := "https://cdn.prod.website-files.com/687a676ef5e70f7d641d3080/687ff334971f215c6e7c3f51_LogoCorevia.svg";
     heroImage := createHeroImage
       "/Coreva/work/Hero_image.png"
       "Corevia Financial Platform Hero";
     secondaryImage := createSecondaryImage
       "/Coreva/work/Secondary.png"
       "Corevia Multi-Page Interface";
     about :=
       {| client := "Corevia Consulting";
          contribution := "Frontend Development, UI Implementation, Responsive Design";
          year := "2024" |};
     fullDescription := "A comprehensive financial management platform built for Corevia Consulting, featuring multiple service pages including Home, About, Features, Pricing, Blog, and Contact. The platform showcases financial analytics tools, investment management services, and digital transformation solutions. Built with modern web technologies to deliver a seamless user experience across all devices with intuitive navigation and engaging visual design.";
     processImage := createSecondaryImage
       "/Coreva/work/processing.png"
       "Corevia Development Process";
     problemTitle := "The Challenge";
     problemDescription :=
     [ "Corevia Consulting needed a professional digital presence to showcase their financial management and consulting services to potential clients. The challenge was to create a scalable, multi-page website that could effectively communicate complex financial concepts while maintaining an approachable and modern aesthetic. The platform needed to serve diverse audiences including small businesses, growing teams, and enterprise clients.";
       "The website required clear presentation of service offerings across budgeting tools, investment management, digital transformation consulting, and market expansion strategies. Additionally, the platform needed to include comprehensive pricing tiers, client testimonials, blog functionality for thought leadership content, and contact forms for lead generation—all while maintaining consistent branding and optimal performance across desktop, tablet, and mobile devices." ];
     solutionTitle := "The Solution";
     solutionDescription :=
     [ "Built with Next.js 16 and TypeScript, leveraging the App Router architecture for optimal performance and SEO capabilities. Implemented a component-based architecture with dedicated page sections for hero, about, benefits, features, core capabilities, pricing, testimonials, blog preview, and call-to-action modules. Created seven distinct pages (Home, About, Features, Pricing, Blog, Blog Detail, Contact) with consistent navigation and footer components.";
       "Designed a modular component system with reusable elements across landing, feature, pricing, blog, and contact sections. Implemented responsive layouts using Tailwind CSS for consistent styling and mobile-first design principles. Created three-tier pricing structure (Starter, Growth, Scale plans) with detailed feature comparisons, animated scroll effects for enhanced user engagement, and optimized image carousels showcasing platform capabilities. Deployed on Netlify for reliable hosting with continuous deployment integration." ];
     closingImage := createHeroImage
       "/Coreva/work/footerimage.png"
       "Corevia Platform Final Product";
     externalLink := Some "https://corevias.netlify.app/" |}.

Definition landscapo_architecture_platform : WorkDetail :=
  {| id := "landscapo-architecture-platform";
     title := "Landscapo Architecture & Design Platform";
     description := "Professional architecture portfolio website showcasing innovative design solutions with comprehensive project galleries and service offerings.";
     category := products;
     thumbnailImage := "/Landscape/landscapo-logo.svg";
     heroImage := createHeroImage
       "/Landscape/work/Hero.png"
       "Landscapo Architecture Platform Hero";
     secondaryImage := createSecondaryImage
       "/Landscape/work/Secondary.png"
       "Landscapo Project Showcase Interface";
     about :=
       {| client := "Landscapo Architecture Studio";
          contribution := "Full-Stack Development, UI/UX Implementation, Animation Integration";
          year := "2024" |};
     fullDescription := "A comprehensive architecture and design portfolio platform built for Landscapo Studio, featuring dynamic project galleries across multiple categories including Urban, Interior, Corporate, and Residential designs. The platform showcases over 50 completed projects with detailed case studies, expert team profiles, and service offerings. Built with modern web technologies including Next.js and Framer Motion to deliver smooth animations and seamless user experience across all devices, highlighting the studio's expertise in innovative architectural solutions and sustainable design practices.";
     processImage := createSecondaryImage
       "/Landscape/work/Processing.png"
       "Landscapo Development Process";
     problemTitle := "The Challenge";
     problemDescription :=
     [ "Landscapo Architecture Studio needed a sophisticated digital platform to showcase their extensive portfolio of architectural projects and establish their brand presence in the competitive architecture and design market. The challenge was to create a visually stunning, multi-page website that could effectively present complex architectural concepts, project galleries, and design philosophies while maintaining fast load times and smooth interactions. The platform needed to serve diverse audiences including potential clients, industry partners, and design enthusiasts.";
       "The website required seamless presentation of project portfolios across multiple categories (Urban, Interior, Corporate, Residential) with high-quality imagery, detailed project specifications, and interactive galleries. Additionally, the platform needed to communicate the studio's impressive metrics—50+ completed projects, 100+ expert team members, and $3.5M in project value—while incorporating engaging animations, FAQ sections for client inquiries, and clear service descriptions. All of this needed to work flawlessly across desktop, tablet, and mobile devices with intuitive navigation and fast performance." ];
     solutionTitle := "The Solution";
     solutionDescription :=
     [ "Built with Next.js 14 and TypeScript, leveraging the App Router architecture for optimal performance and SEO capabilities. Implemented Framer Motion for sophisticated scroll-triggered animations and smooth page transitions that enhance the visual storytelling of architectural projects. Created a component-based architecture with dedicated sections for hero presentations, metrics showcase, project galleries, experience highlights, FAQ modules, and call-to-action components. Developed dynamic routing for individual project pages with detailed property information, overview sections, and image galleries.";
       "Designed a modular component system with reusable elements across landing, project, service, about, and contact sections. Implemented responsive layouts using Tailwind CSS for consistent styling and mobile-first design principles. Created an intuitive project categorization system (Urbano, Interior, Corporate) with filtering capabilities and smooth transitions between views. Integrated interactive FAQ accordion components, animated metric counters, and optimized image carousels showcasing architectural designs. Deployed on Netlify for reliable hosting with continuous deployment integration and optimal asset delivery." ];
     closingImage := createHeroImage
       "/Landscape/work/Footer.png"
       "Landscapo Platform Final Product";
     externalLink := Some "https://landscapo.netlify.app/" |}.

Definition stayli_vacation_rental_platform : WorkDetail :=
  {| id := "stayli-vacation-rental-platform";
     title := "Stayli Vacation Rental Platform";
     description := "Modern vacation rental marketplace connecting travelers with extraordinary stays worldwide, featuring property listings and seamless booking experience.";
     category := products;
     thumbnailImage := "https://cdn.prod.website-files.com/6811ad3e11282304843a1ca2/6811ad3e11282304843a1e18_stayli-black-logo.svg";
     heroImage := createHeroImage
       "/Realestate/work/Hero.png"
       "Stayli Platform Hero";
     secondaryImage := createSecondaryImage
       "/Realestate/work/secondary.png"
       "Stayli Property Listings Interface";
     about :=
       {| client := "Stayli";
          contribution := "Full-Stack Development, UI/UX Implementation, Dynamic Routing";
          year := "2024" |};
     fullDescription := "A comprehensive vacation rental platform built for Stayli, featuring multiple pages including Home, About, Listings, Property Details, and Contact. The platform showcases curated vacation rentals ranging from urban lofts to beachfront villas, mountain cabins, and luxury suites. Built with Next.js App Router architecture to deliver dynamic property browsing, detailed listing pages with image galleries, amenity showcases, and integrated booking forms. The platform serves diverse travelers seeking budget-friendly options to high-end luxury retreats with intuitive search and filtering capabilities.";
     processImage := createSecondaryImage
       "/Realestate/work/Processing.png"
       "Stayli Development Process";
     problemTitle := "The Challenge";
     problemDescription :=
     [ "Stayli needed a digital marketplace to bridge the gap between travelers seeking unique accommodations and property owners offering exceptional stays. The challenge was to create a scalable platform that could effectively showcase diverse property types—from $95 mountain cabins to $210 beachfront suites—while maintaining consistent user experience across property categories. The platform needed to handle dynamic routing for individual property pages, support multiple property attributes (bedrooms, guests, pricing, ratings), and present complex information in an accessible format.";
       "The website required clear presentation of property features including high-quality image galleries, detailed amenities lists, room type variations, location information, and guest reviews. Additionally, the platform needed FAQ sections for customer support, testimonial displays for social proof, destination exploration features, and contact forms for inquiries—all while maintaining optimal performance with image optimization, responsive design across all devices, and SEO-friendly architecture for property discoverability." ];
     solutionTitle := "The Solution";
     solutionDescription :=
     [ "Built with Next.js 14 and TypeScript, leveraging the App Router with dynamic routing patterns ([slug]) for scalable property detail pages. Implemented a robust data architecture using TypeScript interfaces for type-safe property management, including PropertyImage, PropertyAmenity, and Property models with comprehensive attributes (pricing, ratings, reviews, features, amenities). Created five core pages (Home, About, Listings, Property Detail, Contact) with dedicated component architecture for landing sections, listing displays, and property showcases.";
       "Designed a modular component system with reusable elements across hero sections, destination cards, testimonial displays, FAQ accordions, and call-to-action modules. Implemented responsive image handling with srcSet and sizes attributes for optimal loading performance across devices. Created dynamic property filtering by location, floor, size, and bedrooms with real-time search capabilities. Integrated property rating system (5-star reviews), discount badges, and multi-image carousels for property galleries. Deployed on Netlify with continuous deployment, achieving fast load times and seamless navigation between property listings and detail pages." ];
     closingImage := createHeroImage
       "/Realestate/work/Footer.png"
       "Stayli Platform Final Product";
     externalLink := Some "https://realsttate.netlify.app/" |}.

Definition elev8_rwanda_website : WorkDetail :=
  {| id := "elev8-rwanda-website";
     title := "Elev8 Rwanda Corporate Website";
     description := "Multi-brand corporate website with CMS integration and internationalization.";
     category := products;
     thumbnailImage := "/Elev8/Elev8-logo-dark.svg";
     heroImage := createHeroImage
       "/Elev8/work/Heroimage.png"
       "Elev8 Rwanda Website Hero";
     secondaryImage := createSecondaryImage
       "/Elev8/work/secondaryImage.png"
       "Elev8 Rwanda Multi-Brand Interface";
     about :=
       {| client := "Elev8 Rwanda";
          contribution := "Full-Stack Development, UI/UX Design, CMS Integration";
          year := "2024" |};
     fullDescription := "A comprehensive corporate website built for Elev8 Rwanda, featuring two distinct sub-brands: Elev8 Media (digital marketing and media production) and Elev8 Moments (event planning and management). The platform integrates Sanity CMS for dynamic content management, supports three languages (English, French, Arabic), and includes a complete blog system with category filtering and detailed post pages.";
     processImage := createSecondaryImage
       "/Elev8/work/processimage.png"
       "Elev8 Development Process";
     problemTitle := "The Challenge";
     problemDescription :=
     [ "Elev8 Rwanda needed a unified digital presence that could effectively showcase two distinct sub-brands while maintaining a cohesive corporate identity. The challenge was to create a scalable platform that could handle multilingual content, dynamic service offerings, and portfolio showcases for both media production and event management services.";
       "The website needed to serve multiple audiences: potential clients seeking media services, event planning customers, blog readers, and business partners. Additionally, the content team required an intuitive CMS to manage services, team members, testimonials, blog posts, and brand-specific portfolios without technical knowledge." ];
     solutionTitle := "The Solution";
     solutionDescription :=
     [ "Built with Next.js 14 and TypeScript, leveraging App Router for optimal performance and SEO. Integrated Sanity CMS with custom schema types for flexible content management across home pages, services, brands, team members, testimonials, and blog posts. Implemented a robust internationalization system supporting English, French, and Arabic with locale-specific routing.";
       "Designed a modular component architecture with 12+ reusable home sections including hero, services, stats, testimonials, team showcase, blog preview, and newsletter subscription. Created dedicated brand pages for Elev8 Media and Elev8 Moments with unique service packages, portfolio galleries, and event type showcases. Implemented dark mode support with next-themes and built a comprehensive UI component library using Radix UI and Tailwind CSS for consistent design across all pages." ];
     closingImage := createHeroImage
       "/Elev8/work/ClosingImage.png"
       "Elev8 Rwanda Final Product";
     externalLink := Some "https://www.elev8rwanda.com/en" |}.

Definition elev8_moments_event_design : WorkDetail :=
  {| id := "elev8-moments-event-design";
     title := "Elev8 Moments - Event Design Platform";
     description := "Full-service event design and workshop platform for creating intentional, memorable experiences.";
     category := products;
     thumbnailImage := "/Elev8-Moments/Elev8-logo-moment-dark.svg";
     heroImage := createHeroImage
       "/Elev8-Moments/work/hero%20image.png"
       "Elev8 Moments Event Design Platform";
     secondaryImage := createSecondaryImage
       "/Elev8-Moments/work/secondary%20image.png"
       "Event Design Gallery View";
     about :=
       {| client := "Elev8 Moments";
          contribution := "Full-Stack Development, UI/UX Design, Brand Integration";
          year := "2024" |};
     fullDescription := "Elev8 Moments is a comprehensive digital platform designed to showcase and manage premium event design services, creative workshops, and thoughtful gifting solutions. The platform serves as both a portfolio and booking system for clients seeking intentionally curated experiences that foster connection, celebration, and meaningful moments.";
     processImage := createSecondaryImage
       "/Elev8-Moments/work/process%20image.png"
       "Development Process";
     problemTitle := "The Challenge";
     problemDescription :=
     [ "Event design businesses often struggle to effectively showcase their diverse service offerings—from event setup and décor to creative workshops and corporate gifting—in a cohesive digital experience. Traditional websites fail to capture the emotional essence and attention to detail that defines premium event services.";
       "The client needed a platform that could elegantly present multiple service categories (Event Design, Experiences & Workshops, Thoughtful Gifting) while maintaining a luxurious, intentional brand identity. The challenge was creating an intuitive navigation system that guides visitors through various offerings without overwhelming them, while also showcasing a dynamic image gallery that demonstrates the quality and creativity of their work." ];
     solutionTitle := "The Solution";
     solutionDescription :=
     [ "Built with Next.js 14 and TypeScript, the platform leverages modern React patterns and server-side rendering for optimal performance and SEO. The architecture features a modular component system with dedicated route sections for each service category, ensuring scalability and maintainability as the business grows.";
       "The design system implements a sophisticated color palette (#F9F2EC cream and #1E1E1E charcoal) with custom typography (NoirEtBlanc for headings, Montserrat for subheadings, Raleway for body text) that reinforces the brand's elegant, intentional aesthetic. Responsive layouts adapt seamlessly across devices, with carefully crafted grid systems that showcase imagery while maintaining readability. The shared Gallery component provides a unified visual experience across pages, while dedicated sections for Event Setup & Decor, Tablescapes, Florals, and Seasonal offerings allow visitors to explore specific services in depth. Interactive elements include smooth hover transitions, optimized Next.js Image components for fast loading, and strategic call-to-action placements that guide users toward booking inquiries." ];
     closingImage := createHeroImage
       "/Elev8-Moments/work/closing%20image.png"
       "Final Platform Experience";
     externalLink := Some "https://moments.elev8rwanda.com/" |}.

(** [workDetailsData]: the object literal, properties in source order. *)
Definition workDetailsData : Js.object WorkDetail :=
  Js.literal
    [ ("corevia-financial-platform", corevia_financial_platform);
      ("landscapo-architecture-platform", landscapo_architecture_platform);
      ("stayli-vacation-rental-platform", stayli_vacation_rental_platform);
      ("elev8-rwanda-website", elev8_rwanda_website);
      ("elev8-moments-event-design", elev8_moments_event_design) ].

(* ====================================================================== *)
(** * Derived data                                                         *)
(* ====================================================================== *)

(** [getAllWorks] *)
Definition getAllWorks (data : Js.object WorkDetail) : list WorkDetail :=
  Js.Object_values data.

(** [getWorksByCategory] *)
Definition getWorksByCategory
    (data : Js.object WorkDetail) (category' : Category) : list WorkDetail :=
  Js.Array_filter (fun work => Category_eqb (category work) category')
    (getAllWorks data).

(** [getProductsData], [getUIUXData], [get3DData] *)
Definition getProductsData (data : Js.object WorkDetail) : list WorkDetail :=
  getWorksByCategory data products.

Definition getUIUXData (data : Js.object WorkDetail) : list WorkDetail :=
  getWorksByCategory data uiux.

Definition get3DData (data : Js.object WorkDetail) : list WorkDetail :=
  getWorksByCategory data threeD.

(** [getWorkBySlug]: the property read [workDetailsData[slug]]. *)
Definition getWorkBySlug
    (data : Js.object WorkDetail) (slug : string) : Js.value WorkDetail :=
  Js.get data slug.

(** [getAllWorkSlugs] *)
Definition getAllWorkSlugs (data : Js.object WorkDetail) : list string :=
  Js.Object_keys data.

(** The element type of [worksData]. *)
Module Summary.
Record t : Type := make {
  id : string;
  title : string;
  description : string;
  image : string
}.
End Summary.

(** The callback of the [map] in [worksData]. *)
Definition summarize (work : WorkDetail) : Summary.t :=
  {| Summary.id := id work;
     Summary.title := title work;
     Summary.description := description work;
     Summary.image := thumbnailImage work |}.

(** [worksData]: evaluated when the module is loaded, from the literal. *)
Definition worksData : list Summary.t :=
  Js.Array_map summarize (getAllWorks workDetailsData).

(* ====================================================================== *)
(** * Vocabulary of the properties                                        *)
(* ====================================================================== *)

(** One scaled entry of a [srcset]: the source with a [scale-down-to] query
    parameter, labelled with the same width. *)
Definition scaled_entry (source w : string) : string :=
  source ++ "?scale-down-to=" ++ w ++ " " ++ w ++ "w".

(** The unscaled fallback entry. *)
Definition fallback_entry (source : string) : string :=
  source ++ " 4500w".

(** The five entries, in order. *)
Definition srcset_entries (source : string) : list string :=
  [ scaled_entry source "512";
    scaled_entry source "1024";
    scaled_entry source "2048";
    scaled_entry source "4096";
    fallback_entry source ].

(** The image descriptors of one project. *)
Definition images_of (work : WorkDetail) : list WorkImage :=
  [ heroImage work; secondaryImage work; processImage work;
    closingImage work ].

(** Both dimensions or neither. *)
Definition paired_dimensions (image : WorkImage) : bool :=
  match width image, height image with
  | Some _, Some _ => true
  | None, None => true
  | _, _ => false
  end.

(** A catalogue is keyed by id when every project is stored under its own
    [id]. *)
Definition keyed_by_id (data : Js.object WorkDetail) : Prop :=
  Forall (fun kv => id (snd kv) = fst kv) data.

(** [Selected P all sub]: [sub] is what is left of [all], in the same order,
    when exactly the elements that do not satisfy [P] are taken out. *)
Inductive Selected (A : Type) (P : A -> Prop) : list A -> list A -> Prop :=
| Selected_nil : Selected P [] []
| Selected_keep x all sub :
    P x -> Selected P all sub -> Selected P (x :: all) (x :: sub)
| Selected_drop x all sub :
    ~ P x -> Selected P all sub -> Selected P (x :: all) sub.

(** What the module exports once it is loaded: the catalogue object, which
    importers can write to, and the array [worksData], which the module
    body built from the literal. *)
Record Exports : Type := mkExports {
  exported_workDetailsData : Js.object WorkDetail;
  exported_worksData : list Summary.t
}.

Definition loaded : Exports :=
  {| exported_workDetailsData := workDetailsData;
     exported_worksData := worksData |}.

(** What can happen after loading: an accessor is called (a pure read), or
    an importer defines or deletes a property of the exported object.  No
    step evaluates the module body again. *)
Inductive step : Exports -> Exports -> Prop :=
| step_call e : step e e
| step_define e slug work :
    step e {| exported_workDetailsData :=
                Js.define slug work (exported_workDetailsData e);
              exported_worksData := exported_worksData e |}
| step_delete e slug :
    step e {| exported_workDetailsData :=
                Js.delete slug (exported_workDetailsData e);
              exported_worksData := exported_worksData e |}.

Inductive reachable : Exports -> Prop :=
| reachable_loaded : reachable loaded
| reachable_step e e' : reachable e -> step e e' -> reachable e'.

(** The module after an importer deleted one project. *)
Definition without_elev8_rwanda : Exports :=
  {| exported_workDetailsData :=
       Js.delete "elev8-rwanda-website" (exported_workDetailsData loaded);
     exported_worksData := exported_worksData loaded |}.

(* ====================================================================== *)
(** * Facts about the JavaScript layer                                     *)
(* ====================================================================== *)

Section StringFacts.

Lemma append_nil_r (s : string) : s ++ "" = s.
Proof. induction s as [|c s IH]; simpl; [reflexivity | now rewrite IH]. Qed.

Lemma append_assoc (a b c : string) : (a ++ b) ++ c = a ++ b ++ c.
Proof. induction a as [|x a IH]; simpl; [reflexivity | now rewrite IH]. Qed.

Lemma mem_char_append (c : ascii) (a b : string) :
  Js.mem_char c (a ++ b) = Js.mem_char c a || Js.mem_char c b.
Proof.
  induction a as [|x a IH]; simpl; [reflexivity|].
  now rewrite IH, orb_assoc.
Qed.

(** Splitting a piece that holds no separator yields that piece alone. *)
Lemma split_acc_plain (sep : ascii) (s cur : string) :
  Js.mem_char sep s = false ->
  Js.split_acc sep cur s = [cur ++ s].
Proof.
  revert cur; induction s as [|x s IH]; intros cur H; simpl in *.
  - now rewrite append_nil_r.
  - apply orb_false_elim in H as [Hx Hs].
    rewrite Hx, (IH _ Hs), append_assoc. reflexivity.
Qed.

(** Splitting stops a piece at the first separator. *)
Lemma split_acc_sep (sep : ascii) (s rest cur : string) :
  Js.mem_char sep s = false ->
  Js.split_acc sep cur (s ++ String sep rest)
  = (cur ++ s) :: Js.split_acc sep "" rest.
Proof.
  revert cur; induction s as [|x s IH]; intros cur H; simpl in *.
  - now rewrite Ascii.eqb_refl, append_nil_r.
  - apply orb_false_elim in H as [Hx Hs].
    rewrite Hx, (IH _ Hs), append_assoc. reflexivity.
Qed.

(** The same, for a piece given in two parts. *)
Lemma split_acc_entry (sep : ascii) (a b rest cur : string) :
  Js.mem_char sep a = false ->
  Js.mem_char sep b = false ->
  Js.split_acc sep cur (a ++ b ++ String sep rest)
  = (cur ++ a ++ b) :: Js.split_acc sep "" rest.
Proof.
  intros Ha Hb.
  rewrite <- (append_assoc a b), split_acc_sep.
  - reflexivity.
  - now rewrite mem_char_append, Ha, Hb.
Qed.

End StringFacts.

Section ArrayFacts.

Variables A B : Type.

Lemma Array_map_map (f : A -> B) (a : list A) : Js.Array_map f a = map f a.
Proof. induction a as [|x a IH]; simpl; congruence. Qed.

Lemma Array_filter_filter (keep : A -> bool) (a : list A) :
  Js.Array_filter keep a = filter keep a.
Proof.
  induction a as [|x a IH]; simpl; [reflexivity|].
  destruct (keep x); congruence.
Qed.

Lemma Array_filter_In (keep : A -> bool) (a : list A) (x : A) :
  In x (Js.Array_filter keep a) <-> In x a /\ keep x = true.
Proof. rewrite Array_filter_filter. apply filter_In. Qed.

End ArrayFacts.

(* ====================================================================== *)
(** * The image descriptor builder                                         *)
(* ====================================================================== *)

(** C1: for every source, [generateSrcSet] is the comma-separated list of
    exactly five entries: the source with [?scale-down-to=512], [1024],
    [2048], [4096] labelled [512w], [1024w], [2048w], [4096w], and then the
    unmodified source labelled [4500w]. *)
Theorem generateSrcSet_five_entries (source : string) :
  generateSrcSet source = Js.join "," (srcset_entries source)
  /\ length (srcset_entries source) = 5
  /\ srcset_entries source =
       [ source ++ "?scale-down-to=512 512w";
         source ++ "?scale-down-to=1024 1024w";
         source ++ "?scale-down-to=2048 2048w";
         source ++ "?scale-down-to=4096 4096w";
         source ++ " 4500w" ].
Proof.
  repeat split.
  unfold generateSrcSet, srcset_entries, scaled_entry, fallback_entry.
  cbn [Js.join].
  repeat rewrite append_assoc.
  reflexivity.
Qed.

(** When the source holds no comma, splitting the result at its commas gives
    back the five entries. *)
Lemma generateSrcSet_split (source : string) :
  Js.mem_char "," source = false ->
  Js.split "," (generateSrcSet source) = srcset_entries source.
Proof.
  intros H.
  unfold Js.split.
  change (generateSrcSet source) with
    (source ++ "?scale-down-to=512 512w" ++ String ","
      (source ++ "?scale-down-to=1024 1024w" ++ String ","
        (source ++ "?scale-down-to=2048 2048w" ++ String ","
          (source ++ "?scale-down-to=4096 4096w" ++ String ","
            (source ++ " 4500w"))))).
  do 4 (rewrite split_acc_entry by (assumption || reflexivity)).
  rewrite split_acc_plain by (now rewrite mem_char_append, H).
  reflexivity.
Qed.

Example generateSrcSet_split_hero :
  Js.split "," (generateSrcSet "/Coreva/work/Hero_image.png")
  = srcset_entries "/Coreva/work/Hero_image.png".
Proof. apply generateSrcSet_split. reflexivity. Defined.

(** A comma inside the source is copied into every entry, so a reader that
    splits at commas then sees more than five pieces. *)
Example generateSrcSet_split_comma :
  length (Js.split "," (generateSrcSet "a,b")) = 10.
Proof. reflexivity. Qed.

(** [spread (guard dim)] keeps a dimension exactly when it was passed and is
    truthy. *)
Lemma spread_guard (dim : option Js.number) :
  spread (guard dim) = if Js.truthy_arg dim then dim else None.
Proof.
  destruct dim as [n|]; simpl; [|reflexivity].
  destruct (Js.truthy n); reflexivity.
Qed.

Lemma spread_guard_Some (dim : option Js.number) (n : Js.number) :
  spread (guard dim) = Some n <-> dim = Some n /\ Js.truthy n = true.
Proof.
  rewrite spread_guard.
  destruct dim as [m|]; simpl.
  - destruct (Js.truthy m) eqn:E; split.
    + intros [= <-]. now split.
    + now intros [-> _].
    + discriminate.
    + intros [[= ->] Hn]. congruence.
  - split; [discriminate | now intros [? _]].
Qed.

(** The falsy numbers. *)
Example falsy_numbers :
  Js.truthy 0%float = false
  /\ Js.truthy (-0)%float = false
  /\ Js.truthy nan = false
  /\ Js.truthy 2400%float = true
  /\ Js.truthy (-1)%float = true
  /\ Js.truthy infinity = true.
Proof. repeat split. Qed.

(** C2: the hero builder always yields width 2400 and height 1600; the
    secondary builder always yields neither a width nor a height. *)
Theorem hero_and_secondary_dimensions (source altText : string) :
  width (createHeroImage source altText) = Some 2400%float
  /\ height (createHeroImage source altText) = Some 1600%float
  /\ width (createSecondaryImage source altText) = None
  /\ height (createSecondaryImage source altText) = None.
Proof.
  unfold createHeroImage, createSecondaryImage, createWorkImage.
  cbn [width height].
  rewrite !spread_guard.
  repeat split.
Qed.

(** C7: the shared builder returns the given source, the responsive
    variants of that source, the given alt text and the constant sizing
    hint; the width (height) field is present exactly when the argument was
    passed and is truthy, and then holds the argument; a zero or absent
    argument yields no field. *)
Theorem createWorkImage_fields
    (source altText : string) (w h : option Js.number) :
  let image := createWorkImage source altText w h in
  src image = source
  /\ srcSet image = Some (generateSrcSet source)
  /\ alt image = altText
  /\ sizes image = Some "calc(100vw - 24px)"
  /\ width image = (if Js.truthy_arg w then w else None)
  /\ height image = (if Js.truthy_arg h then h else None)
  /\ (forall n, width image = Some n <-> w = Some n /\ Js.truthy n = true)
  /\ (forall n, height image = Some n <-> h = Some n /\ Js.truthy n = true)
  /\ width (createWorkImage source altText None h) = None
  /\ width (createWorkImage source altText (Some 0%float) h) = None
  /\ height (createWorkImage source altText w None) = None
  /\ height (createWorkImage source altText w (Some 0%float)) = None.
Proof.
  cbv zeta. unfold createWorkImage. cbn [src srcSet alt sizes width height].
  repeat match goal with |- _ /\ _ => split end;
    try reflexivity;
    try apply spread_guard;
    intros n; apply spread_guard_Some.
Qed.

(** C10: the shared builder decides on width and height independently: a
    truthy width with a zero or absent height gives a descriptor with a
    width only, and the other way round; every image of the catalog has
    both dimensions or neither. *)
Theorem createWorkImage_one_dimension (source altText : string) :
  (width (createWorkImage source altText (Some 2400%float) None)
     = Some 2400%float
   /\ height (createWorkImage source altText (Some 2400%float) None) = None)
  /\ (width (createWorkImage source altText (Some 2400%float) (Some 0%float))
        = Some 2400%float
      /\ height (createWorkImage source altText (Some 2400%float)
                   (Some 0%float)) = None)
  /\ (width (createWorkImage source altText None (Some 1600%float)) = None
      /\ height (createWorkImage source altText None (Some 1600%float))
           = Some 1600%float)
  /\ (width (createWorkImage source altText (Some 0%float) (Some 1600%float))
        = None
      /\ height (createWorkImage source altText (Some 0%float)
                   (Some 1600%float)) = Some 1600%float)
  /\ paired_dimensions
       (createWorkImage source altText (Some 2400%float) None) = false
  /\ forallb paired_dimensions
       (flat_map images_of (getAllWorks workDetailsData)) = true.
Proof.
  unfold createWorkImage. cbn [width height paired_dimensions].
  rewrite !spread_guard.
  repeat split.
Qed.

(* ====================================================================== *)
(** * Facts about objects used as maps                                     *)
(* ====================================================================== *)

Section ObjectFacts.

Variable V : Type.

Implicit Types (o : Js.object V) (k : string) (v : V).

Lemma place_Permutation (n : N) (kv : string * V) l :
  Permutation (Js.place n kv l) ((n, kv) :: l).
Proof.
  induction l as [|[m kv'] l IH]; simpl; [reflexivity|].
  destruct (n <=? m)%N; [reflexivity|].
  rewrite IH. apply perm_swap.
Qed.

(** The own property order lists every own property once. *)
Lemma own_properties_Permutation o : Permutation (Js.own_properties o) o.
Proof.
  unfold Js.own_properties.
  induction o as [|kv o IH]; simpl; [reflexivity|].
  destruct (Js.array_index (fst kv)) as [n|].
  - rewrite Array_map_map, place_Permutation, <- Array_map_map. simpl.
    now apply perm_skip.
  - rewrite <- Permutation_middle. now apply perm_skip.
Qed.

(** Without array-index keys the own property order is the creation
    order. *)
Lemma indexed_named o :
  Forall (fun kv => Js.array_index (fst kv) = None) o ->
  Js.indexed o = [] /\ Js.named o = o.
Proof.
  induction 1 as [|kv o Hkv _ [IHi IHn]]; [now split|].
  cbn [Js.indexed Js.named]. rewrite Hkv, IHi, IHn. now split.
Qed.

Lemma own_properties_named o :
  Forall (fun kv => Js.array_index (fst kv) = None) o ->
  Js.own_properties o = o.
Proof.
  intros H. apply indexed_named in H as [Hi Hn].
  unfold Js.own_properties. now rewrite Hi, Hn.
Qed.

Lemma Object_keys_length o : length (Js.Object_keys o) = length o.
Proof.
  unfold Js.Object_keys.
  rewrite Array_map_map, length_map.
  apply Permutation_length, own_properties_Permutation.
Qed.

Lemma Object_values_length o : length (Js.Object_values o) = length o.
Proof.
  unfold Js.Object_values.
  rewrite Array_map_map, length_map.
  apply Permutation_length, own_properties_Permutation.
Qed.

Lemma Object_keys_In o k : In k (Js.Object_keys o) <-> In k (map fst o).
Proof.
  unfold Js.Object_keys. rewrite Array_map_map.
  split; apply Permutation_in, Permutation_map;
    [|symmetry]; apply own_properties_Permutation.
Qed.

Lemma Object_values_In o v : In v (Js.Object_values o) <-> In v (map snd o).
Proof.
  unfold Js.Object_values. rewrite Array_map_map.
  split; apply Permutation_in, Permutation_map;
    [|symmetry]; apply own_properties_Permutation.
Qed.

(** An own property read finds a property of the object. *)
Lemma own_Some_In o k v : Js.own k o = Some v -> In (k, v) o.
Proof.
  induction o as [|[k' v'] o IH]; simpl; [discriminate|].
  destruct (String.eqb_spec k' k) as [->|_].
  - intros [= ->]. now left.
  - intros H. right. now apply IH.
Qed.

Lemma own_of_key o k :
  In k (map fst o) -> exists v, Js.own k o = Some v.
Proof.
  induction o as [|[k' v'] o IH]; simpl; [contradiction|].
  destruct (String.eqb_spec k' k) as [->|Hne].
  - intros _. now exists v'.
  - intros [H|H]; [contradiction | now apply IH].
Qed.

Lemma own_None o k : Js.own k o = None <-> ~ In k (map fst o).
Proof.
  split.
  - intros HN Hin. apply own_of_key in Hin as [v Hv]. congruence.
  - intros Hn. destruct (Js.own k o) as [v|] eqn:E; [|reflexivity].
    exfalso. apply Hn. apply own_Some_In in E.
    change k with (fst (k, v)). now apply in_map.
Qed.

(** A read of a key that is neither an own property nor a property of
    [Object.prototype] yields [undefined]. *)
Lemma get_Undefined o k :
  ~ In k (Js.Object_keys o) ->
  Js.own k Js.Object_prototype = None ->
  Js.get o k = Js.Undefined.
Proof.
  intros Hk Hp. unfold Js.get.
  rewrite Object_keys_In, <- own_None in Hk.
  now rewrite Hk, Hp.
Qed.

(** A read of a key that is not an own property continues into
    [Object.prototype]. *)
Lemma get_Inherited o k (b : Js.builtin) :
  ~ In k (Js.Object_keys o) ->
  Js.own k Js.Object_prototype = Some b ->
  Js.get o k = Js.Inherited b.
Proof.
  intros Hk Hp. unfold Js.get.
  rewrite Object_keys_In, <- own_None in Hk.
  now rewrite Hk, Hp.
Qed.

End ObjectFacts.

(* ====================================================================== *)
(** * The query layer                                                      *)
(* ====================================================================== *)

Lemma Category_eqb_eq (c d : Category) : Category_eqb c d = true <-> c = d.
Proof. destruct c, d; split; (reflexivity || discriminate). Qed.

Section AnyCatalog.

Variable data : Js.object WorkDetail.

Lemma getAllWorks_length : length (getAllWorks data) = length data.
Proof. apply Object_values_length. Qed.

Lemma getAllWorkSlugs_length : length (getAllWorkSlugs data) = length data.
Proof. apply Object_keys_length. Qed.

(** In a catalogue keyed by id the keys are the ids, in the same order. *)
Lemma getAllWorkSlugs_ids :
  keyed_by_id data ->
  getAllWorkSlugs data = Js.Array_map id (getAllWorks data).
Proof.
  unfold keyed_by_id, getAllWorkSlugs, getAllWorks,
    Js.Object_keys, Js.Object_values.
  intros H.
  apply (Permutation_Forall
           (Permutation_sym (own_properties_Permutation data))) in H.
  induction H as [|kv l Hkv _ IH]; simpl; [reflexivity|].
  now rewrite IH, Hkv.
Qed.

(** A slug that is a key reads the project stored under it. *)
Lemma getWorkBySlug_key (slug : string) :
  In slug (getAllWorkSlugs data) ->
  exists work,
    getWorkBySlug data slug = Js.Own work /\ In (slug, work) data.
Proof.
  unfold getAllWorkSlugs, getWorkBySlug, Js.get.
  rewrite Object_keys_In. intros H.
  apply own_of_key in H as [work E].
  exists work. rewrite E. split; [reflexivity|].
  now apply own_Some_In.
Qed.

Lemma getWorkBySlug_key_id (slug : string) :
  keyed_by_id data ->
  In slug (getAllWorkSlugs data) ->
  exists work, getWorkBySlug data slug = Js.Own work /\ id work = slug.
Proof.
  intros K H. apply getWorkBySlug_key in H as (work & E & Hin).
  exists work. split; [exact E|].
  unfold keyed_by_id in K. rewrite Forall_forall in K.
  exact (K _ Hin).
Qed.

(** A slug that is neither a key nor a property name of [Object.prototype]
    reads [undefined]. *)
Lemma getWorkBySlug_other (slug : string) :
  ~ In slug (getAllWorkSlugs data) ->
  Js.own slug Js.Object_prototype = None ->
  getWorkBySlug data slug = Js.Undefined.
Proof. apply get_Undefined. Qed.

Lemma getWorksByCategory_In (c : Category) (work : WorkDetail) :
  In work (getWorksByCategory data c)
  <-> In work (getAllWorks data) /\ category work = c.
Proof.
  unfold getWorksByCategory.
  rewrite Array_filter_In, Category_eqb_eq. reflexivity.
Qed.

End AnyCatalog.

(** The shipped catalogue: no key is an array index, and every project is
    stored under its own id. *)
Lemma workDetailsData_named :
  Forall (fun kv => Js.array_index (fst kv) = None) workDetailsData.
Proof. repeat constructor. Qed.

Lemma workDetailsData_keyed_by_id : keyed_by_id workDetailsData.
Proof. repeat constructor. Qed.

Lemma workDetailsData_properties :
  workDetailsData =
    [ ("corevia-financial-platform", corevia_financial_platform);
      ("landscapo-architecture-platform", landscapo_architecture_platform);
      ("stayli-vacation-rental-platform", stayli_vacation_rental_platform);
      ("elev8-rwanda-website", elev8_rwanda_website);
      ("elev8-moments-event-design", elev8_moments_event_design) ].
Proof. reflexivity. Qed.

(** The spec's example of a missing key. *)
Example getWorkBySlug_does_not_exist :
  getWorkBySlug workDetailsData "does-not-exist" = Js.Undefined.
Proof.
  apply getWorkBySlug_other; [|reflexivity].
  vm_compute. intuition discriminate.
Qed.

(** Every key of the shipped catalogue reads the project with that id. *)
Lemma getWorkBySlug_shipped_key (slug : string) :
  In slug (getAllWorkSlugs workDetailsData) ->
  exists work,
    getWorkBySlug workDetailsData slug = Js.Own work /\ id work = slug.
Proof. apply getWorkBySlug_key_id, workDetailsData_keyed_by_id. Qed.

(** C3: ["constructor"] is not a key of the catalogue, yet the read
    [workDetailsData["constructor"]] does not yield [undefined]: it yields
    the [constructor] property inherited from [Object.prototype].  The
    same holds for every other property name of [Object.prototype]. *)
Theorem getWorkBySlug_constructor :
  ~ In "constructor" (getAllWorkSlugs workDetailsData)
  /\ getWorkBySlug workDetailsData "constructor"
     = Js.Inherited Js.Object_constructor
  /\ getWorkBySlug workDetailsData "constructor" <> Js.Undefined
  /\ Forall (fun name =>
       ~ In name (getAllWorkSlugs workDetailsData)
       /\ getWorkBySlug workDetailsData name <> Js.Undefined)
       (map fst Js.Object_prototype).
Proof.
  split; [|split; [|split]].
  - vm_compute. intuition discriminate.
  - reflexivity.
  - discriminate.
  - vm_compute. repeat constructor; try discriminate; intuition discriminate.
Qed.

(** C4: [getAllWorks] has as many elements as the catalogue has keys, and
    [getAllWorkSlugs] is the sequence of the [id]s of [getAllWorks]: every
    project is stored under its own id, in the same order. *)
Theorem getAllWorks_slugs :
  length (getAllWorks workDetailsData) = length (Js.Object_keys workDetailsData)
  /\ length (getAllWorks workDetailsData) = length workDetailsData
  /\ length (getAllWorks workDetailsData) = 5
  /\ getAllWorkSlugs workDetailsData
     = Js.Array_map id (getAllWorks workDetailsData)
  /\ keyed_by_id workDetailsData.
Proof.
  split; [|split; [|split; [|split]]].
  - now rewrite getAllWorks_length, Object_keys_length.
  - apply getAllWorks_length.
  - rewrite getAllWorks_length. reflexivity.
  - apply getAllWorkSlugs_ids, workDetailsData_keyed_by_id.
  - apply workDetailsData_keyed_by_id.
Qed.

(** C5: every element of [getWorksByCategory c] has category [c]; the
    three category lists are pairwise disjoint, and a project is in
    [getAllWorks] exactly when it is in one of them.  This holds for the
    shipped catalogue and for any other. *)
Theorem category_lists_partition (data : Js.object WorkDetail) :
  (forall c, Forall (fun work => category work = c) (getWorksByCategory data c))
  /\ (forall work,
        ~ (In work (getProductsData data) /\ In work (getUIUXData data)))
  /\ (forall work,
        ~ (In work (getProductsData data) /\ In work (get3DData data)))
  /\ (forall work,
        ~ (In work (getUIUXData data) /\ In work (get3DData data)))
  /\ (forall work,
        In work (getAllWorks data)
        <-> In work (getProductsData data)
            \/ In work (getUIUXData data)
            \/ In work (get3DData data)).
Proof.
  unfold getProductsData, getUIUXData, get3DData.
  split; [|split; [|split; [|split]]].
  - intros c. apply Forall_forall. intros work H.
    now apply getWorksByCategory_In in H.
  - intros work [H1 H2].
    apply getWorksByCategory_In in H1 as [_ H1].
    apply getWorksByCategory_In in H2 as [_ H2]. congruence.
  - intros work [H1 H2].
    apply getWorksByCategory_In in H1 as [_ H1].
    apply getWorksByCategory_In in H2 as [_ H2]. congruence.
  - intros work [H1 H2].
    apply getWorksByCategory_In in H1 as [_ H1].
    apply getWorksByCategory_In in H2 as [_ H2]. congruence.
  - intros work. rewrite !getWorksByCategory_In. split.
    + intros H. destruct (category work) eqn:E; auto.
    + intros [[H _]|[[H _]|[H _]]]; exact H.
Qed.

Section Selection.

Variable A : Type.
Variable P : A -> Prop.
Variable keep : A -> bool.
Hypothesis keep_P : forall x, keep x = true <-> P x.

Lemma Array_filter_Selected (a : list A) :
  Selected P a (Js.Array_filter keep a).
Proof.
  induction a as [|x a IH]; simpl; [constructor|].
  destruct (keep x) eqn:E.
  - apply Selected_keep; [now apply keep_P | exact IH].
  - apply Selected_drop; [|exact IH].
    intros HP. apply keep_P in HP. congruence.
Qed.

Lemma Selected_unique (a sub sub' : list A) :
  Selected P a sub -> Selected P a sub' -> sub = sub'.
Proof.
  intros H. revert sub'.
  induction H as [|x a sub Hx _ IH|x a sub Hx _ IH];
    intros sub' H'; inversion H'; subst;
    try reflexivity; try contradiction.
  - f_equal. now apply IH.
  - now apply IH.
Qed.

Lemma Array_filter_none (a : list A) :
  (forall x, In x a -> ~ P x) -> Js.Array_filter keep a = [].
Proof.
  induction a as [|x a IH]; simpl; intros H; [reflexivity|].
  destruct (keep x) eqn:E.
  - exfalso. apply (H x); [now left | now apply keep_P].
  - apply IH. intros y Hy. apply H. now right.
Qed.

End Selection.

(** C6: for every category, [getWorksByCategory] is exactly the
    subsequence of [getAllWorks] of the projects with that category, in the
    order of [getAllWorks]; when no project matches it is the empty
    sequence. *)
Theorem getWorksByCategory_selects
    (data : Js.object WorkDetail) (c : Category) :
  Selected (fun work => category work = c)
    (getAllWorks data) (getWorksByCategory data c)
  /\ (forall sub,
        Selected (fun work => category work = c) (getAllWorks data) sub ->
        sub = getWorksByCategory data c)
  /\ ((forall work, In work (getAllWorks data) -> category work <> c) ->
      getWorksByCategory data c = []).
Proof.
  assert (K : forall work,
             Category_eqb (category work) c = true <-> category work = c)
    by (intros work; apply Category_eqb_eq).
  assert (S := Array_filter_Selected _ _ K (getAllWorks data)).
  unfold getWorksByCategory.
  split; [exact S | split].
  - intros sub H. exact (Selected_unique H S).
  - apply (Array_filter_none _ _ K).
Qed.

(** The shipped catalogue lists its projects in the order of the source. *)
Lemma getAllWorks_shipped :
  getAllWorks workDetailsData =
    [ corevia_financial_platform;
      landscapo_architecture_platform;
      stayli_vacation_rental_platform;
      elev8_rwanda_website;
      elev8_moments_event_design ].
Proof. reflexivity. Qed.

(** No shipped project has category [uiux], so that list is empty. *)
Lemma getWorksByCategory_uiux_shipped :
  getWorksByCategory workDetailsData uiux = [].
Proof.
  apply (getWorksByCategory_selects workDetailsData uiux).
  rewrite getAllWorks_shipped.
  intros work [<-|[<-|[<-|[<-|[<-|[]]]]]]; discriminate.
Defined.

(** C9: all five shipped projects have category [products]; so
    [getProductsData] returns all five in catalogue order, and [getUIUXData]
    and [get3DData] return the empty sequence. *)
Theorem shipped_catalog_all_products :
  Forall (fun work => category work = products) (getAllWorks workDetailsData)
  /\ length (getAllWorks workDetailsData) = 5
  /\ getProductsData workDetailsData = getAllWorks workDetailsData
  /\ getProductsData workDetailsData =
       [ corevia_financial_platform;
         landscapo_architecture_platform;
         stayli_vacation_rental_platform;
         elev8_rwanda_website;
         elev8_moments_event_design ]
  /\ getUIUXData workDetailsData = []
  /\ get3DData workDetailsData = [].
Proof.
  split; [|split; [|split; [|split; [|split]]]]; try reflexivity.
  rewrite getAllWorks_shipped. repeat constructor.
Qed.

(* ====================================================================== *)
(** * The listing data and the loaded module                               *)
(* ====================================================================== *)

Lemma step_worksData e e' :
  step e e' -> exported_worksData e' = exported_worksData e.
Proof. destruct 1; reflexivity. Qed.

Lemma reachable_worksData e :
  reachable e -> exported_worksData e = worksData.
Proof.
  induction 1 as [|e e' _ IH Hs]; [reflexivity|].
  now rewrite (step_worksData Hs).
Qed.

Lemma nth_error_Array_map (A B : Type) (f : A -> B) (a : list A) (i : nat) :
  nth_error (Js.Array_map f a) i = option_map f (nth_error a i).
Proof.
  revert i; induction a as [|x a IH]; intros [|i]; simpl; auto.
Qed.

(** C8: [worksData] holds, at every position of the catalogue order, the
    summary of the project at that position: its [id], [title] and
    [description], and its [thumbnailImage] as [image]; the summary with id
    ["stayli-vacation-rental-platform"] has that project's thumbnail as its
    image; and [worksData] is the value built when the module was loaded,
    whatever is called or written afterwards. *)
Theorem worksData_summaries :
  length worksData = length (getAllWorks workDetailsData)
  /\ (forall i work,
        nth_error (getAllWorks workDetailsData) i = Some work ->
        nth_error worksData i =
          Some {| Summary.id := id work;
                  Summary.title := title work;
                  Summary.description := description work;
                  Summary.image := thumbnailImage work |})
  /\ Js.Array_map Summary.id worksData = getAllWorkSlugs workDetailsData
  /\ (exists summary work,
        Js.Array_find
          (fun s => String.eqb (Summary.id s) "stayli-vacation-rental-platform")
          worksData = Some summary
        /\ getWorkBySlug workDetailsData "stayli-vacation-rental-platform"
           = Js.Own work
        /\ Summary.image summary = thumbnailImage work)
  /\ (forall e, reachable e -> exported_worksData e = worksData).
Proof.
  split; [|split; [|split; [|split]]].
  - unfold worksData. now rewrite Array_map_map, length_map.
  - intros i work H. unfold worksData.
    now rewrite nth_error_Array_map, H.
  - reflexivity.
  - exists (summarize stayli_vacation_rental_platform),
      stayli_vacation_rental_platform.
    repeat split.
  - exact reachable_worksData.
Qed.

(** After a deletion the catalogue lists four projects and [worksData]
    still lists the five summaries built at load. *)
Lemma worksData_after_delete :
  exported_worksData without_elev8_rwanda = worksData
  /\ length (getAllWorks (exported_workDetailsData without_elev8_rwanda)) = 4
  /\ length (exported_worksData without_elev8_rwanda) = 5.
Proof.
  split; [|split; reflexivity].
  apply worksData_summaries.
  apply reachable_step with (e := loaded); constructor.
Defined.

(* ====================================================================== *)
(** * Further properties of the image descriptor builder                   *)
(* ====================================================================== *)

Lemma length_append (a b : string) :
  String.length (a ++ b) = String.length a + String.length b.
Proof. induction a as [|x a IH]; simpl; [reflexivity | now rewrite IH]. Qed.

(** Two concatenations with heads of the same length agree on the heads. *)
Lemma append_head_inj (a b x y : string) :
  String.length a = String.length b -> a ++ x = b ++ y -> a = b.
Proof.
  revert b; induction a as [|c a IH]; intros [|d b]; simpl;
    try discriminate; [reflexivity|].
  intros [= L] [= -> E]. f_equal. now apply IH.
Qed.

(** The result is five copies of the source and 108 fixed characters. *)
Lemma generateSrcSet_length (source : string) :
  String.length (generateSrcSet source) = 5 * String.length source + 108.
Proof.
  unfold generateSrcSet. rewrite !length_append. simpl String.length. lia.
Qed.

(** Different sources never share a [srcSet]. *)
Theorem generateSrcSet_injective (source source' : string) :
  generateSrcSet source = generateSrcSet source' -> source = source'.
Proof.
  intros E.
  assert (L := f_equal String.length E).
  rewrite !generateSrcSet_length in L.
  apply (append_head_inj source source' _ _ ltac:(lia) E).
Qed.

Lemma generateSrcSet_injective_at_hero :
  generateSrcSet "/Coreva/work/Hero_image.png"
    = generateSrcSet ("/Coreva/work/" ++ "Hero_image.png")
  /\ "/Coreva/work/Hero_image.png" = "/Coreva/work/" ++ "Hero_image.png".
Proof.
  split; [reflexivity|].
  apply generateSrcSet_injective. reflexivity.
Defined.

(** What is spread in is truthy, so guarding it again changes nothing. *)
Lemma spread_guard_idempotent (dim : option Js.number) :
  spread (guard (spread (guard dim))) = spread (guard dim).
Proof.
  destruct dim as [n|]; simpl; [|reflexivity].
  destruct (Js.truthy n) eqn:E; simpl; [now rewrite E | reflexivity].
Qed.

(** Building a descriptor again from the fields of a built descriptor gives
    the same descriptor: the dimensions that survived one build survive the
    next, and the dropped ones stay dropped. *)
Theorem createWorkImage_rebuild
    (source altText : string) (w h : option Js.number) :
  let image := createWorkImage source altText w h in
  createWorkImage (src image) (alt image) (width image) (height image)
  = image.
Proof.
  cbv zeta. unfold createWorkImage. cbn [src alt width height].
  now rewrite !spread_guard_idempotent.
Qed.

(* ====================================================================== *)
(** * Further properties of the query layer                                *)
(* ====================================================================== *)

Section MoreObjectFacts.

Variable V : Type.

Implicit Types (o : Js.object V) (k : string) (v : V).

(** With distinct keys, every property of the object is what a read of its
    key finds. *)
Lemma own_of_property o k v :
  NoDup (map fst o) -> In (k, v) o -> Js.own k o = Some v.
Proof.
  induction o as [|[k' v'] o IH]; simpl; [contradiction|].
  intros N [[= -> ->]|H].
  - now rewrite String.eqb_refl.
  - inversion N as [|? ? Hk' N']; subst.
    destruct (String.eqb_spec k' k) as [->|_]; [|now apply IH].
    exfalso. apply Hk'. change k with (fst (k, v)). now apply in_map.
Qed.







End MoreObjectFacts.

Section AnyCatalogMore.

Variable data : Js.object WorkDetail.


(** A project that [getWorkBySlug] returns is stored under that slug and is
    one of the projects [getAllWorks] lists. *)
Theorem getWorkBySlug_listed (slug : string) (work : WorkDetail) :
  getWorkBySlug data slug = Js.Own work ->
  In (slug, work) data /\ In work (getAllWorks data).
Proof.
  unfold getWorkBySlug, Js.get. intros H.
  destruct (Js.own slug data) as [w|] eqn:E.
  - injection H as ->. apply own_Some_In in E. split; [exact E|].
    apply Object_values_In. change work with (snd (slug, work)).
    now apply in_map.
  - destruct (Js.own slug Js.Object_prototype); discriminate.
Qed.

(** With distinct keys, every project [getAllWorks] lists is returned by
    [getWorkBySlug] for one of the slugs [getAllWorkSlugs] lists. *)
Theorem getAllWorks_found_by_slug (work : WorkDetail) :
  NoDup (map fst data) ->
  In work (getAllWorks data) ->
  exists slug,
    In slug (getAllWorkSlugs data)
    /\ getWorkBySlug data slug = Js.Own work.
Proof.
  intros N H. apply Object_values_In, in_map_iff in H as ([k w] & E & Hin).
  simpl in E; subst w. exists k. split.
  - apply Object_keys_In. change k with (fst (k, work)). now apply in_map.
  - unfold getWorkBySlug, Js.get. now rewrite (@own_of_property _ data k work N Hin).
Qed.

(** When no key is an array index, [getAllWorks] and [getAllWorkSlugs]
    follow the order in which the properties were created. *)
Theorem getAllWorks_creation_order :
  Forall (fun kv => Js.array_index (fst kv) = None) data ->
  getAllWorks data = Js.Array_map snd data
  /\ getAllWorkSlugs data = Js.Array_map fst data.
Proof.
  intros H. unfold getAllWorks, getAllWorkSlugs, Js.Object_values,
    Js.Object_keys.
  now rewrite (own_properties_named H).
Qed.

(** The three category lists together hold every project of [getAllWorks]
    exactly as often as [getAllWorks] does; so their lengths add up. *)
Theorem category_lists_Permutation :
  Permutation
    (getProductsData data ++ getUIUXData data ++ get3DData data)%list
    (getAllWorks data)
  /\ length (getProductsData data) + length (getUIUXData data)
     + length (get3DData data) = length (getAllWorks data).
Proof.
  assert (P : Permutation
    (getProductsData data ++ getUIUXData data ++ get3DData data)%list
    (getAllWorks data)).
  { unfold getProductsData, getUIUXData, get3DData, getWorksByCategory.
    induction (getAllWorks data) as [|work l IH]; simpl; [reflexivity|].
    destruct (category work); cbn.
    - now apply perm_skip.
    - rewrite <- Permutation_middle. now apply perm_skip.
    - rewrite app_assoc, <- Permutation_middle, <- app_assoc.
      now apply perm_skip. }
  split; [exact P|].
  apply Permutation_length in P. rewrite !length_app in P. lia.
Qed.

(** When every project has category [c], [getWorksByCategory c] returns all
    of [getAllWorks], and the other categories return nothing. *)
Theorem getWorksByCategory_single_category (c : Category) :
  Forall (fun work => category work = c) (getAllWorks data) ->
  getWorksByCategory data c = getAllWorks data
  /\ forall c', c' <> c -> getWorksByCategory data c' = [].
Proof.
  unfold getWorksByCategory.
  induction 1 as [|work l Hw _ [IH IH']]; simpl; [now split|].
  split.
  - rewrite (proj2 (Category_eqb_eq (category work) c) Hw). now rewrite IH.
  - intros c' Hc'. destruct (Category_eqb (category work) c') eqn:E.
    + apply Category_eqb_eq in E. congruence.
    + now apply IH'.
Qed.

(** In a catalogue keyed by id with distinct keys, every summary of the
    listing leads back, through its [id] and [getWorkBySlug], to the project
    it was made from. *)
Theorem summary_resolves (summary : Summary.t) :
  keyed_by_id data ->
  NoDup (map fst data) ->
  In summary (Js.Array_map summarize (getAllWorks data)) ->
  exists work,
    getWorkBySlug data (Summary.id summary) = Js.Own work
    /\ summary = summarize work.
Proof.
  intros K N H.
  rewrite Array_map_map in H. apply in_map_iff in H as (work & <- & Hw).
  exists work. split; [|reflexivity].
  apply Object_values_In, in_map_iff in Hw as ([k w] & E & Hin).
  simpl in E; subst w.
  unfold keyed_by_id in K. rewrite Forall_forall in K.
  specialize (K _ Hin). simpl in K. simpl. rewrite K.
  unfold getWorkBySlug, Js.get. now rewrite (@own_of_property _ data k work N Hin).
Qed.

(** In a catalogue keyed by id with distinct keys, no two summaries of the
    listing share an [id]. *)
Theorem summary_ids_distinct :
  keyed_by_id data ->
  NoDup (map fst data) ->
  NoDup (Js.Array_map Summary.id
           (Js.Array_map summarize (getAllWorks data))).
Proof.
  intros K N.
  assert (E : Js.Array_map Summary.id
                (Js.Array_map summarize (getAllWorks data))
              = getAllWorkSlugs data).
  { rewrite (getAllWorkSlugs_ids K).
    induction (getAllWorks data) as [|w l IH]; simpl; congruence. }
  rewrite E. unfold getAllWorkSlugs, Js.Object_keys. rewrite Array_map_map.
  apply (Permutation_NoDup
           (Permutation_map fst
              (Permutation_sym (own_properties_Permutation data)))).
  exact N.
Qed.

End AnyCatalogMore.


(* ====================================================================== *)
(** * The further properties on the shipped catalogue                      *)
(* ====================================================================== *)

Lemma workDetailsData_keys_distinct : NoDup (map fst workDetailsData).
Proof.
  rewrite workDetailsData_properties. simpl.
  repeat (constructor; [simpl; intuition discriminate|]). constructor.
Qed.

Lemma getWorkBySlug_listed_stayli :
  In ("stayli-vacation-rental-platform", stayli_vacation_rental_platform)
    workDetailsData
  /\ In stayli_vacation_rental_platform (getAllWorks workDetailsData).
Proof.
  apply (@getWorkBySlug_listed workDetailsData
           "stayli-vacation-rental-platform").
  reflexivity.
Defined.

Lemma getAllWorks_found_by_slug_moments :
  exists slug,
    In slug (getAllWorkSlugs workDetailsData)
    /\ getWorkBySlug workDetailsData slug = Js.Own elev8_moments_event_design.
Proof.
  apply (@getAllWorks_found_by_slug workDetailsData).
  - exact workDetailsData_keys_distinct.
  - rewrite getAllWorks_shipped. simpl. tauto.
Defined.

Lemma getAllWorks_creation_order_shipped :
  getAllWorks workDetailsData = Js.Array_map snd workDetailsData
  /\ getAllWorkSlugs workDetailsData = Js.Array_map fst workDetailsData.
Proof.
  apply (@getAllWorks_creation_order workDetailsData).
  exact workDetailsData_named.
Defined.

(** A slug that is an array index is listed first, wherever the literal
    puts it. *)
Example getAllWorkSlugs_array_index_first :
  getAllWorkSlugs
    (Js.literal
       [ ("corevia-financial-platform", corevia_financial_platform);
         ("2024", elev8_rwanda_website) ])
  = [ "2024"; "corevia-financial-platform" ].
Proof. reflexivity. Qed.

Lemma getWorksByCategory_single_category_shipped :
  getWorksByCategory workDetailsData products = getAllWorks workDetailsData
  /\ forall c', c' <> products -> getWorksByCategory workDetailsData c' = [].
Proof.
  apply (@getWorksByCategory_single_category workDetailsData products).
  rewrite getAllWorks_shipped. repeat constructor.
Defined.

Lemma summary_resolves_stayli :
  exists work,
    getWorkBySlug workDetailsData
      (Summary.id (summarize stayli_vacation_rental_platform)) = Js.Own work
    /\ summarize stayli_vacation_rental_platform = summarize work.
Proof.
  apply (@summary_resolves workDetailsData).
  - exact workDetailsData_keyed_by_id.
  - exact workDetailsData_keys_distinct.
  - rewrite getAllWorks_shipped. simpl. tauto.
Defined.

Lemma summary_ids_distinct_shipped :
  NoDup (Js.Array_map Summary.id
           (Js.Array_map summarize (getAllWorks workDetailsData))).
Proof.
  apply (@summary_ids_distinct workDetailsData).
  - exact workDetailsData_keyed_by_id.
  - exact workDetailsData_keys_distinct.
Defined.
